(** * LocalPlaywrightBrowser: the attach-over-CDP browser session

    A shallow embedding of
    [src/magentic_ui/tools/playwright/browser/local_playwright_browser.py]:
    the configuration model, the constructor, the [_start] / [_close]
    lifecycle, the [browser_context] accessor and the two configuration
    converters.  The Playwright library is outside the repository; it is a
    parameter of the development (record [Driver]), and every call the
    session makes to it is logged. *)

From Stdlib Require Import String List Bool Arith Lia.
Import ListNotations.
Local Open Scope string_scope.
Local Open Scope list_scope.

(** ** Python exceptions *)

(** An exception value: its class name, [str(e)], and whether the class
    derives from [Exception] (what [except Exception] catches) or only from
    [BaseException] (asyncio's [CancelledError], [KeyboardInterrupt]). *)
Record PyExc : Type := mkExc {
  exc_class : string;
  exc_str : string;
  exc_is_Exception : bool
}.

Definition RuntimeError (msg : string) : PyExc := mkExc "RuntimeError" msg true.
Definition AttributeError (msg : string) : PyExc := mkExc "AttributeError" msg true.

(** Outcome of a Python call: [inl e] is "raised e", [inr v] is "returned v". *)
Definition result (A : Type) : Type := (PyExc + A)%type.

(** ** Handles of the Playwright library *)

Definition Playwright : Type := nat.
Definition BrowserContext : Type := nat.

(** A [Browser] as [connect_over_cdp] hands it over: its identity and the
    value of its [contexts] property. *)
Record Browser : Type := mkBrowser {
  browser_id : nat;
  contexts : list BrowserContext
}.

(** Calls that cross the boundary to the library.  [CallBrowserClose] and
    [CallContextClose] are [Browser.close()] and [BrowserContext.close()]:
    the operations that would end a browser or a context. *)
Inductive Call : Type :=
| CallAsyncPlaywrightStart
| CallConnectOverCdp (pw : Playwright) (endpoint : string)
| CallNewContext (b : Browser)
| CallStop (pw : Playwright)
| CallBrowserClose (b : Browser)
| CallContextClose (c : BrowserContext).

Definition is_connect (c : Call) : bool :=
  match c with CallConnectOverCdp _ _ => true | _ => false end.

Definition closes_browser_or_context (c : Call) : bool :=
  match c with
  | CallBrowserClose _ | CallContextClose _ => true
  | _ => false
  end.

(** The library as the session sees it.  Each operation answers from the
    calls made so far, so a driver may answer a repeated call differently
    (an endpoint that comes up later, a second [stop] on a stopped driver).
    Every operation may raise, as every awaited Python call may. *)
Record Driver : Type := mkDriver {
  drv_start : list Call -> result Playwright;
  drv_connect_over_cdp : list Call -> Playwright -> string -> result Browser;
  drv_new_context : list Call -> Browser -> result BrowserContext;
  drv_stop : list Call -> Playwright -> result unit
}.

(** ** Configuration *)

Record LocalPlaywrightBrowserConfig : Type := mkConfig {
  headless : bool;
  browser_channel : option string;
  enable_downloads : bool;
  persistent_context : bool;
  browser_data_dir : option string
}.

(** [x is not None] *)
Definition is_not_None {A : Type} (x : option A) : bool :=
  match x with Some _ => true | None => false end.

(** [self.persistent_context and self.browser_data_dir is not None] *)
Definition requires_persistent_context (self : LocalPlaywrightBrowserConfig) : bool :=
  persistent_context self && is_not_None (browser_data_dir self).

(** ** The session object *)

Record LocalPlaywrightBrowser : Type := mkLocalPlaywrightBrowser {
  _headless : bool;
  _browser_channel : option string;
  _enable_downloads : bool;
  _persistent_context : bool;
  _browser_data_dir : option string;
  _playwright : option Playwright;
  _browser : option Browser;
  _context : option BrowserContext
}.

Definition set_playwright (v : option Playwright) (o : LocalPlaywrightBrowser) :=
  mkLocalPlaywrightBrowser (_headless o) (_browser_channel o) (_enable_downloads o)
    (_persistent_context o) (_browser_data_dir o) v (_browser o) (_context o).

Definition set_browser (v : option Browser) (o : LocalPlaywrightBrowser) :=
  mkLocalPlaywrightBrowser (_headless o) (_browser_channel o) (_enable_downloads o)
    (_persistent_context o) (_browser_data_dir o) (_playwright o) v (_context o).

Definition set_context (v : option BrowserContext) (o : LocalPlaywrightBrowser) :=
  mkLocalPlaywrightBrowser (_headless o) (_browser_channel o) (_enable_downloads o)
    (_persistent_context o) (_browser_data_dir o) (_playwright o) (_browser o) v.


(** [__init__]: stores the five arguments and leaves the three handles
    unset.  It has no [raise]; the result type records that a constructor,
    like any call, could have raised. *)
Definition __init__ (headless : bool) (browser_channel : option string)
    (enable_downloads persistent_context : bool)
    (browser_data_dir : option string) : result LocalPlaywrightBrowser :=
  inr (mkLocalPlaywrightBrowser headless browser_channel enable_downloads
         persistent_context browser_data_dir None None None).

(** ** Running a method: the object, the calls made, what was printed *)

Record Machine : Type := mkMachine {
  self : LocalPlaywrightBrowser;
  calls : list Call;
  stdout : list string
}.

(** A method body.  The machine is returned on both outcomes: what a Python
    method assigned before it raised stays assigned. *)
Definition M (A : Type) : Type := Machine -> result A * Machine.

Definition ret {A : Type} (a : A) : M A := fun m => (inr a, m).

Definition raise {A : Type} (e : PyExc) : M A := fun m => (inl e, m).

Definition bind {A B : Type} (c : M A) (k : A -> M B) : M B :=
  fun m =>
    match c m with
    | (inr a, m') => k a m'
    | (inl e, m') => (inl e, m')
    end.

Notation "x <- c ;; k" := (bind c (fun x => k))
  (at level 61, c at next level, right associativity).
Notation "c ;; k" := (bind c (fun _ => k))
  (at level 61, right associativity).

(** [try: body / except Exception as e: handler e] *)
Definition try_except_Exception {A : Type} (body : M A) (handler : PyExc -> M A) : M A :=
  fun m =>
    match body m with
    | (inl e, m') => if exc_is_Exception e then handler e m' else (inl e, m')
    | r => r
    end.

Definition get_attr {A : Type} (f : LocalPlaywrightBrowser -> A) : M A :=
  fun m => (inr (f (self m)), m).

Definition set_attr (upd : LocalPlaywrightBrowser -> LocalPlaywrightBrowser) : M unit :=
  fun m => (inr tt, mkMachine (upd (self m)) (calls m) (stdout m)).

Definition print (line : string) : M unit :=
  fun m => (inr tt, mkMachine (self m) (calls m) (stdout m ++ [line])).

(** An awaited library call: logged, then answered by the driver from the
    calls that preceded it. *)
Definition call {A : Type} (c : Call) (answer : list Call -> result A) : M A :=
  fun m => (answer (calls m), mkMachine (self m) (calls m ++ [c]) (stdout m)).

(** Attribute access on an [Optional] attribute: on [None] Python raises
    [AttributeError]. *)
Definition deref {A : Type} (attr : string) (x : option A) : M A :=
  match x with
  | Some a => ret a
  | None => raise (AttributeError (String.append "'NoneType' object has no attribute '"
                              (String.append attr "'")))
  end.

Definition cdp_endpoint : string := "http://localhost:9222".

Definition msg_attempt : string :=
  "DEBUG: Attempting to connect to existing Chrome instance on port 9222...".
Definition msg_connected : string :=
  "DEBUG: Successfully connected to local Chrome!".
Definition msg_error (e : PyExc) : string :=
  String.append
    "ERROR: Could not connect to Chrome. Make sure it is running with --remote-debugging-port=9222. Error: "
    (exc_str e).
Definition msg_not_initialized : string :=
  "Browser context is not initialized. Start the browser first.".

Section WithDriver.

Variable drv : Driver.

(** [_start] *)
Definition _start : M unit :=
  pw <- call CallAsyncPlaywrightStart (drv_start drv) ;;
  set_attr (set_playwright (Some pw)) ;;
  print msg_attempt ;;
  try_except_Exception
    (p <- get_attr _playwright ;;
     p <- deref "chromium" p ;;
     b <- call (CallConnectOverCdp p cdp_endpoint)
            (fun h => drv_connect_over_cdp drv h p cdp_endpoint) ;;
     set_attr (set_browser (Some b)) ;;
     b <- get_attr _browser ;;
     b <- deref "contexts" b ;;
     match contexts b with
     | c :: _ => set_attr (set_context (Some c))
     | [] =>
         c <- call (CallNewContext b) (fun h => drv_new_context drv h b) ;;
         set_attr (set_context (Some c))
     end ;;
     print msg_connected)
    (fun e => print (msg_error e) ;; raise e).

(** [_close] *)
Definition _close : M unit :=
  p <- get_attr _playwright ;;
  match p with
  | Some pw => call (CallStop pw) (fun h => drv_stop drv h pw)
  | None => ret tt
  end.

End WithDriver.

(** The [browser_context] property. *)
Definition browser_context (self : LocalPlaywrightBrowser) : result BrowserContext :=
  match _context self with
  | None => inl (RuntimeError msg_not_initialized)
  | Some c => inr c
  end.

(** [_to_config] *)
Definition _to_config (self : LocalPlaywrightBrowser) : LocalPlaywrightBrowserConfig :=
  mkConfig (_headless self) (_browser_channel self) (_enable_downloads self)
    (_persistent_context self) (_browser_data_dir self).

(** [_from_config]: [cls(headless=config.headless, ...)] *)
Definition _from_config (config : LocalPlaywrightBrowserConfig) : result LocalPlaywrightBrowser :=
  __init__ (headless config) (browser_channel config) (enable_downloads config)
    (persistent_context config) (browser_data_dir config).

(** ** Lifecycles: a caller invoking the methods one after another *)

Inductive Op : Type := OpStart | OpClose.

Definition run_op (drv : Driver) (o : Op) : M unit :=
  match o with
  | OpStart => _start drv
  | OpClose => _close drv
  end.

(** The caller carries on after a method raised (it caught the exception);
    the outcomes are collected in order. *)
Fixpoint run_ops (drv : Driver) (ops : list Op) (m : Machine)
  : list (result unit) * Machine :=
  match ops with
  | [] => ([], m)
  | o :: rest =>
      let (r, m1) := run_op drv o m in
      let (rs, m2) := run_ops drv rest m1 in
      (r :: rs, m2)
  end.

Definition returned {A : Type} (r : result A) : bool :=
  match r with inr _ => true | inl _ => false end.

(** Whether some [OpStart] of the run returned normally. *)
Fixpoint some_start_returned (ops : list Op) (outs : list (result unit)) : bool :=
  match ops, outs with
  | OpStart :: ops', r :: outs' => returned r || some_start_returned ops' outs'
  | OpClose :: ops', _ :: outs' => some_start_returned ops' outs'
  | _, _ => false
  end.

(** Whether every [OpClose] of the run returned normally. *)
Fixpoint every_close_returned (ops : list Op) (outs : list (result unit)) : bool :=
  match ops, outs with
  | OpClose :: ops', r :: outs' => returned r && every_close_returned ops' outs'
  | OpStart :: ops', _ :: outs' => every_close_returned ops' outs'
  | _, _ => true
  end.

(** A machine around an object, before any call was made. *)
Definition boot (o : LocalPlaywrightBrowser) : Machine := mkMachine o [] [].

(** The object [__init__] builds. *)
Definition fresh (c : LocalPlaywrightBrowserConfig) : LocalPlaywrightBrowser :=
  mkLocalPlaywrightBrowser (headless c) (browser_channel c) (enable_downloads c)
    (persistent_context c) (browser_data_dir c) None None None.

(** What the [except] branch of [_start] leaves on the output: the error
    line, when the exception is one the branch catches. *)
Definition log_error (e : PyExc) (out : list string) : list string :=
  if exc_is_Exception e then out ++ [msg_error e] else out.

(** Calls a method made: what the log gained. *)
Definition calls_made (before after : Machine) : list Call :=
  skipn (length (calls before)) (calls after).

Definition result_map {A B : Type} (f : A -> B) (r : result A) : result B :=
  match r with
  | inr a => inr (f a)
  | inl e => inl e
  end.


(** Every attach of the log went to the given endpoint. *)
Definition connects_only_to (endpoint : string) (l : list Call) : bool :=
  forallb (fun c => match c with
                    | CallConnectOverCdp _ ep => String.eqb ep endpoint
                    | _ => true
                    end) l.

(** ** Sample drivers *)

(** A Chrome listening on port 9222 with its default context [100]; a
    context made on request is [200]. *)
Definition chrome_running : Driver :=
  mkDriver (fun _ => inr 1)
           (fun _ _ _ => inr (mkBrowser 10 [100]))
           (fun _ _ => inr 200)
           (fun _ _ => inr tt).


Definition connection_refused : PyExc :=
  mkExc "Error" "BrowserType.connect_over_cdp: connect ECONNREFUSED 127.0.0.1:9222" true.

(** Nothing listens on port 9222. *)
Definition chrome_absent : Driver :=
  mkDriver (fun _ => inr 1)
           (fun _ _ _ => inl connection_refused)
           (fun _ _ => inr 200)
           (fun _ _ => inr tt).

(** Each connection yields a context object of its own: the [n]-th call
    overall names it. *)
Definition chrome_reconnecting : Driver :=
  mkDriver (fun h => inr (length h))
           (fun h _ _ => inr (mkBrowser (length h) [100 + length h]))
           (fun _ _ => inr 200)
           (fun _ _ => inr tt).

Definition sample_config : LocalPlaywrightBrowserConfig :=
  mkConfig true None false false None.

Definition persistent_without_dir : LocalPlaywrightBrowserConfig :=
  mkConfig false (Some "chrome") false true None.

Definition persistent_empty_dir : LocalPlaywrightBrowserConfig :=
  mkConfig false (Some "chrome") false true (Some "").

(** ** Keyword construction *)

(** The keyword arguments of a call: [None] is "not passed".  The two
    [Optional[str]] arguments may be passed as [None]. *)
Record Kwargs : Type := mkKwargs {
  kw_headless : option bool;
  kw_browser_channel : option (option string);
  kw_enable_downloads : option bool;
  kw_persistent_context : option bool;
  kw_browser_data_dir : option (option string)
}.

Definition or_default {A : Type} (d : A) (x : option A) : A :=
  match x with Some a => a | None => d end.

(** What pydantic raises for a field without default that is not passed;
    the message is the first line of its report. *)
Definition ValidationError (msg : string) : PyExc := mkExc "ValidationError" msg true.

(** [LocalPlaywrightBrowserConfig(...)] called with keywords: the field declarations of the
    model; [headless] has no default, the other four have. *)
Definition LocalPlaywrightBrowserConfig_new (kw : Kwargs)
  : result LocalPlaywrightBrowserConfig :=
  match kw_headless kw with
  | None => inl (ValidationError "1 validation error for LocalPlaywrightBrowserConfig")
  | Some h =>
      inr (mkConfig h
             (or_default None (kw_browser_channel kw))
             (or_default false (kw_enable_downloads kw))
             (or_default false (kw_persistent_context kw))
             (or_default None (kw_browser_data_dir kw)))
  end.

(** [LocalPlaywrightBrowser(...)] called with keywords: the defaults of the signature of
    [__init__]. *)
Definition LocalPlaywrightBrowser_new (kw : Kwargs) : result LocalPlaywrightBrowser :=
  __init__ (or_default false (kw_headless kw))
           (or_default None (kw_browser_channel kw))
           (or_default false (kw_enable_downloads kw))
           (or_default false (kw_persistent_context kw))
           (or_default None (kw_browser_data_dir kw)).

(** ** Observations on the log and on the object *)

Definition is_stop (c : Call) : bool :=
  match c with CallStop _ => true | _ => false end.

Definition is_new_context (c : Call) : bool :=
  match c with CallNewContext _ => true | _ => false end.

(** No call of the log closes a browser or a context. *)
Definition never_closes (l : list Call) : bool :=
  forallb (fun c => negb (closes_browser_or_context c)) l.


(** The handles are held in the order they are acquired: a context only
    with a browser, a browser only with a driver. *)
Definition handles_ordered (o : LocalPlaywrightBrowser) : bool :=
  implb (is_not_None (_context o)) (is_not_None (_browser o)) &&
  implb (is_not_None (_browser o)) (is_not_None (_playwright o)).

Definition is_start_op (o : Op) : bool :=
  match o with OpStart => true | OpClose => false end.

Definition is_close_op (o : Op) : bool :=
  match o with OpClose => true | OpStart => false end.

(** ** More sample drivers *)

Definition driver_not_installed : PyExc :=
  mkExc "Error" "Executable doesn't exist" true.

(** The Playwright driver itself does not come up. *)
Definition driver_broken : Driver :=
  mkDriver (fun _ => inl driver_not_installed)
           (fun _ _ _ => inr (mkBrowser 10 [100]))
           (fun _ _ => inr 200)
           (fun _ _ => inr tt).

Definition target_closed : PyExc :=
  mkExc "Error" "Browser.new_context: Target closed" true.

(** A Chrome without context that refuses to make one. *)
Definition chrome_refusing_context : Driver :=
  mkDriver (fun _ => inr 1)
           (fun _ _ _ => inr (mkBrowser 10 []))
           (fun _ _ => inl target_closed)
           (fun _ _ => inr tt).

(** * Properties *)

(** ** Equations of the two lifecycle methods *)

(** [_start], case by case on what the driver answers. *)
Lemma _start_eq (drv : Driver) (m : Machine) :
  _start drv m =
  let h1 := calls m ++ [CallAsyncPlaywrightStart] in
  match drv_start drv (calls m) with
  | inl e => (inl e, mkMachine (self m) h1 (stdout m))
  | inr pw =>
      let o1 := set_playwright (Some pw) (self m) in
      let out1 := stdout m ++ [msg_attempt] in
      let h2 := h1 ++ [CallConnectOverCdp pw cdp_endpoint] in
      match drv_connect_over_cdp drv h1 pw cdp_endpoint with
      | inl e => (inl e, mkMachine o1 h2 (log_error e out1))
      | inr b =>
          let o2 := set_browser (Some b) o1 in
          match contexts b with
          | c :: _ =>
              (inr tt, mkMachine (set_context (Some c) o2) h2 (out1 ++ [msg_connected]))
          | [] =>
              let h3 := h2 ++ [CallNewContext b] in
              match drv_new_context drv h2 b with
              | inl e => (inl e, mkMachine o2 h3 (log_error e out1))
              | inr c =>
                  (inr tt, mkMachine (set_context (Some c) o2) h3 (out1 ++ [msg_connected]))
              end
          end
      end
  end.
Proof.
  unfold _start, bind, try_except_Exception, call, set_attr, get_attr, print, log_error.
  cbn.
  destruct (drv_start drv (calls m)) as [e | pw]; cbn; [reflexivity |].
  destruct (drv_connect_over_cdp drv _ pw cdp_endpoint) as [e | b]; cbn.
  - destruct (exc_is_Exception e); reflexivity.
  - destruct (contexts b) as [| c cs]; cbn; [| reflexivity].
    destruct (drv_new_context drv _ b) as [e | c]; cbn; [| reflexivity].
    destruct (exc_is_Exception e); reflexivity.
Qed.

(** [_close], by the driver attribute. *)
Lemma _close_eq (drv : Driver) (m : Machine) :
  _close drv m =
  match _playwright (self m) with
  | Some pw =>
      (drv_stop drv (calls m) pw, mkMachine (self m) (calls m ++ [CallStop pw]) (stdout m))
  | None => (inr tt, m)
  end.
Proof.
  unfold _close, bind, get_attr, call, ret; cbn.
  destruct (_playwright (self m)) as [pw |]; [| reflexivity].
  destruct (drv_stop drv (calls m) pw); reflexivity.
Qed.

Lemma skipn_app_exact {A : Type} (l new : list A) : skipn (length l) (l ++ new) = new.
Proof. induction l as [| x l IH]; cbn; auto. Qed.

Lemma calls_made_app (m m' : Machine) (new : list Call) :
  calls m' = calls m ++ new -> calls_made m m' = new.
Proof. unfold calls_made; intros ->; apply skipn_app_exact. Qed.

(** ** The configuration *)

(** C8.  [requires_persistent_context] holds exactly when
    [persistent_context] is true and [browser_data_dir] is present (not
    [None]); with [persistent_context] true and no [browser_data_dir] it is
    false, whatever the other fields. *)
Theorem requires_persistent_context_iff :
  (forall c : LocalPlaywrightBrowserConfig,
      requires_persistent_context c = true <->
      (persistent_context c = true /\ exists d, browser_data_dir c = Some d)) /\
  (forall (h : bool) (ch : option string) (dl : bool),
      requires_persistent_context (mkConfig h ch dl true None) = false).
Proof.
  split; [| reflexivity].
  intros [h ch dl p d]; unfold requires_persistent_context; cbn.
  rewrite andb_true_iff; split.
  - intros [Hp Hd]; split; [exact Hp |].
    destruct d as [s |]; [exists s; reflexivity | discriminate].
  - intros [Hp [s Hd]]; subst; split; reflexivity.
Qed.

(** C10.  Building a browser from a configuration and converting it back
    gives the configuration again: [_to_config (_from_config c) = c], all
    five fields kept. *)
Theorem to_config_from_config (c : LocalPlaywrightBrowserConfig) :
  result_map _to_config (_from_config c) = inr c.
Proof. destruct c; reflexivity. Qed.

(** C3, as the specification has it, fails: constructing with
    [persistent_context=True] and no [browser_data_dir], or an empty one,
    returns an object. *)
Lemma init_accepts_persistent_without_dir :
  __init__ false (Some "chrome") false true None = inr (fresh persistent_without_dir) /\
  __init__ false (Some "chrome") false true (Some "") = inr (fresh persistent_empty_dir).
Proof. split; reflexivity. Qed.

(** C3, amended.  Construction validates nothing and never raises: for all
    five arguments, also [persistent_context=True] with [browser_data_dir]
    absent or empty, it returns an object that stores them as given and has
    no driver, browser or context handle. *)
Theorem init_never_raises (h : bool) (ch : option string) (dl p : bool) (d : option string) :
  exists o : LocalPlaywrightBrowser,
    __init__ h ch dl p d = inr o /\
    _to_config o = mkConfig h ch dl p d /\
    _playwright o = None /\ _browser o = None /\ _context o = None.
Proof. eexists; split; [reflexivity |]; cbn; auto. Qed.

(** ** close *)

(** C1.  [_close] calls the library at most once, and only to stop the
    driver it holds: nothing it calls closes the browser or the context, and
    the object keeps its browser and context attributes as they were. *)
Theorem close_stops_driver_only (drv : Driver) (m : Machine) :
  self (snd (_close drv m)) = self m /\
  calls (snd (_close drv m)) =
    calls m ++ match _playwright (self m) with
               | Some pw => [CallStop pw]
               | None => []
               end /\
  forallb (fun c => negb (closes_browser_or_context c))
          (calls_made m (snd (_close drv m))) = true.
Proof.
  assert (Hc : calls (snd (_close drv m)) =
               calls m ++ match _playwright (self m) with
                          | Some pw => [CallStop pw]
                          | None => []
                          end).
  { rewrite _close_eq; destruct (_playwright (self m)); cbn;
      [reflexivity | now rewrite app_nil_r]. }
  repeat split.
  - rewrite _close_eq; destruct (_playwright (self m)); reflexivity.
  - exact Hc.
  - rewrite (calls_made_app _ _ _ Hc); destruct (_playwright (self m)); reflexivity.
Qed.

(** ** start *)

(** What [_start] adds to the log is fixed by how far it got. *)
Lemma _start_calls (drv : Driver) (m : Machine) :
  exists new : list Call,
    calls (snd (_start drv m)) = calls m ++ CallAsyncPlaywrightStart :: new /\
    (new = [] \/
     exists pw, new = [CallConnectOverCdp pw cdp_endpoint] \/
                exists b, new = [CallConnectOverCdp pw cdp_endpoint; CallNewContext b]).
Proof.
  rewrite _start_eq; cbn zeta.
  destruct (drv_start drv (calls m)) as [e | pw]; cbn.
  { exists []; auto. }
  destruct (drv_connect_over_cdp drv _ pw cdp_endpoint) as [e | b]; cbn.
  { exists [CallConnectOverCdp pw cdp_endpoint]; rewrite <- app_assoc; cbn; eauto 10. }
  destruct (contexts b) as [| c cs].
  - exists [CallConnectOverCdp pw cdp_endpoint; CallNewContext b].
    destruct (drv_new_context drv _ b); cbn; rewrite <- !app_assoc; cbn; eauto 10.
  - exists [CallConnectOverCdp pw cdp_endpoint]; cbn; rewrite <- app_assoc; cbn; eauto 10.
Qed.




(** C6.  When the driver is up and the attach raises [e], [_start] raises
    that same [e]: it is printed (if [except Exception] catches it) and
    raised again, not replaced and not swallowed.  The attach is attempted
    once: the calls of this [_start] are the driver start and one
    [connect_over_cdp].  The object keeps the new driver handle and its
    earlier browser and context attributes. *)
Theorem start_reraises_connect_error (drv : Driver) (m : Machine)
    (pw : Playwright) (e : PyExc)
    (Hs : drv_start drv (calls m) = inr pw)
    (Hc : drv_connect_over_cdp drv (calls m ++ [CallAsyncPlaywrightStart]) pw cdp_endpoint
          = inl e) :
  fst (_start drv m) = inl e /\
  calls_made m (snd (_start drv m)) =
    [CallAsyncPlaywrightStart; CallConnectOverCdp pw cdp_endpoint] /\
  length (filter is_connect (calls_made m (snd (_start drv m)))) = 1 /\
  stdout (snd (_start drv m)) = log_error e (stdout m ++ [msg_attempt]) /\
  self (snd (_start drv m)) = set_playwright (Some pw) (self m).
Proof.
  assert (Hm : calls_made m (snd (_start drv m)) =
               [CallAsyncPlaywrightStart; CallConnectOverCdp pw cdp_endpoint]).
  { apply calls_made_app. rewrite _start_eq; cbn zeta. rewrite Hs, Hc; cbn.
    now rewrite <- app_assoc. }
  rewrite Hm. rewrite _start_eq; cbn zeta. rewrite Hs, Hc; cbn. auto.
Qed.

Lemma start_reraises_connect_error_witness :
  fst (_start chrome_absent (boot (fresh sample_config))) = inl connection_refused /\
  calls_made (boot (fresh sample_config))
    (snd (_start chrome_absent (boot (fresh sample_config)))) =
    [CallAsyncPlaywrightStart; CallConnectOverCdp 1 cdp_endpoint] /\
  length (filter is_connect
            (calls_made (boot (fresh sample_config))
               (snd (_start chrome_absent (boot (fresh sample_config)))))) = 1 /\
  stdout (snd (_start chrome_absent (boot (fresh sample_config)))) =
    log_error connection_refused ([] ++ [msg_attempt]) /\
  self (snd (_start chrome_absent (boot (fresh sample_config)))) =
    set_playwright (Some 1) (fresh sample_config).
Proof.
  apply (start_reraises_connect_error chrome_absent (boot (fresh sample_config))
           1 connection_refused); reflexivity.
Defined.


(** ** Lifecycles *)

Lemma run_ops_cons (drv : Driver) (o : Op) (rest : list Op) (m : Machine) :
  run_ops drv (o :: rest) m =
  (fst (run_op drv o m) :: fst (run_ops drv rest (snd (run_op drv o m))),
   snd (run_ops drv rest (snd (run_op drv o m)))).
Proof.
  cbn [run_ops]. destruct (run_op drv o m) as [r m1]; cbn [fst snd].
  destruct (run_ops drv rest m1); reflexivity.
Qed.

(** [_close] assigns no attribute. *)
Lemma _close_self (drv : Driver) (m : Machine) : self (snd (_close drv m)) = self m.
Proof. rewrite _close_eq; destruct (_playwright (self m)); reflexivity. Qed.

(** [_start] sets the context attribute exactly when it returns. *)
Lemma _start_context (drv : Driver) (m : Machine) :
  match fst (_start drv m) with
  | inr _ => exists c, _context (self (snd (_start drv m))) = Some c
  | inl _ => _context (self (snd (_start drv m))) = _context (self m)
  end.
Proof.
  rewrite _start_eq; cbn zeta.
  destruct (drv_start drv (calls m)) as [e | pw]; cbn; [reflexivity |].
  destruct (drv_connect_over_cdp drv _ pw cdp_endpoint) as [e | b]; cbn; [reflexivity |].
  destruct (contexts b) as [| c cs]; cbn; [| eauto].
  destruct (drv_new_context drv _ b); cbn; eauto.
Qed.

(** Over a run, the context attribute is set iff it was set at the outset
    or some [_start] returned. *)
Lemma run_ops_context (drv : Driver) (ops : list Op) :
  forall m : Machine,
    is_not_None (_context (self (snd (run_ops drv ops m)))) =
    is_not_None (_context (self m)) || some_start_returned ops (fst (run_ops drv ops m)).
Proof.
  induction ops as [| o rest IH]; intros m.
  - cbn; now rewrite orb_false_r.
  - rewrite run_ops_cons; cbn [fst snd]. rewrite IH.
    destruct o; cbn [run_op some_start_returned].
    + pose proof (_start_context drv m) as Hc.
      destruct (fst (_start drv m)) as [e | u]; cbn [returned].
      * now rewrite Hc.
      * destruct Hc as [c ->]; cbn. now rewrite orb_true_r.
    + now rewrite _close_self.
Qed.

(** C2, as the specification has it, fails: after a [_start] that returned
    and a [_close] that returned, [browser_context] still returns the
    context handle [100] chosen by that [_start]. *)
Lemma browser_context_after_close_returns_handle :
  fst (run_ops chrome_running [OpStart; OpClose] (boot (fresh sample_config)))
    = [inr tt; inr tt] /\
  browser_context
    (self (snd (run_ops chrome_running [OpStart; OpClose] (boot (fresh sample_config)))))
    = inr 100.
Proof. split; reflexivity. Qed.

(** C2, amended.  On an object built by the constructor and taken through
    any sequence of [_start] and [_close] calls, [browser_context] raises
    the [RuntimeError] "not initialized" exactly when no [_start] has
    returned normally so far, and returns the stored context handle once one
    has.  [_close] does not change what the accessor answers: it does not
    clear the handle. *)
Theorem browser_context_raises_until_started (drv : Driver)
    (c : LocalPlaywrightBrowserConfig) (ops : list Op) :
  match browser_context (self (snd (run_ops drv ops (boot (fresh c))))) with
  | inl e =>
      e = RuntimeError msg_not_initialized /\
      some_start_returned ops (fst (run_ops drv ops (boot (fresh c)))) = false
  | inr ctx =>
      _context (self (snd (run_ops drv ops (boot (fresh c))))) = Some ctx /\
      some_start_returned ops (fst (run_ops drv ops (boot (fresh c)))) = true
  end /\
  (forall m : Machine,
      browser_context (self (snd (_close drv m))) = browser_context (self m)).
Proof.
  split.
  - pose proof (run_ops_context drv ops (boot (fresh c))) as H.
    cbn [boot fresh self _context is_not_None orb] in H.
    unfold browser_context.
    destruct (_context (self (snd (run_ops drv ops (boot (fresh c)))))) as [ctx |];
      cbn in H; auto.
  - intros m; now rewrite _close_self.
Qed.

(** With a driver whose [stop] returns, every [_close] of a run returns. *)
Lemma run_ops_closes (drv : Driver)
    (Hstop : forall h pw, drv_stop drv h pw = inr tt) (ops : list Op) :
  forall m : Machine, every_close_returned ops (fst (run_ops drv ops m)) = true.
Proof.
  induction ops as [| o rest IH]; intros m; [reflexivity |].
  rewrite run_ops_cons; cbn [fst snd].
  destruct o; cbn [run_op every_close_returned]; [apply IH |].
  rewrite IH, andb_true_r, _close_eq.
  destruct (_playwright (self m)) as [pw |]; cbn; [now rewrite Hstop | reflexivity].
Qed.

(** C7.  [_close] has no failure of its own in any phase.  On an object
    just constructed it returns without calling anything and changes
    nothing.  In every state its outcome is that of the driver's [stop]
    when a driver handle is held, and a normal return otherwise.  After a
    [_start] that acquired the driver and then failed to attach, [_close]
    returns what [stop] returns and its one call is [stop] on that driver.
    Hence, with a driver whose [stop] returns normally, every [_close] of
    every sequence of [_start] and [_close] calls returns normally, a
    [_close] after a [_close] included. *)
Theorem close_safe_in_every_phase (drv : Driver) :
  (forall c : LocalPlaywrightBrowserConfig,
      _close drv (boot (fresh c)) = (inr tt, boot (fresh c))) /\
  (forall m : Machine,
      fst (_close drv m) =
      match _playwright (self m) with
      | Some pw => drv_stop drv (calls m) pw
      | None => inr tt
      end) /\
  (forall (m : Machine) (pw : Playwright) (e : PyExc),
      drv_start drv (calls m) = inr pw ->
      drv_connect_over_cdp drv (calls m ++ [CallAsyncPlaywrightStart]) pw cdp_endpoint
        = inl e ->
      fst (_start drv m) = inl e /\
      fst (_close drv (snd (_start drv m))) =
        drv_stop drv (calls (snd (_start drv m))) pw /\
      calls_made (snd (_start drv m)) (snd (_close drv (snd (_start drv m))))
        = [CallStop pw]) /\
  ((forall h pw, drv_stop drv h pw = inr tt) ->
   forall (ops : list Op) (m : Machine),
     every_close_returned ops (fst (run_ops drv ops m)) = true).
Proof.
  repeat apply conj.
  - intros c; apply _close_eq.
  - intros m; rewrite _close_eq; destruct (_playwright (self m)); reflexivity.
  - intros m pw e Hs Hc.
    assert (Hm : _start drv m =
                 (inl e, mkMachine (set_playwright (Some pw) (self m))
                           ((calls m ++ [CallAsyncPlaywrightStart])
                              ++ [CallConnectOverCdp pw cdp_endpoint])
                           (log_error e (stdout m ++ [msg_attempt])))).
    { rewrite _start_eq; cbn zeta; now rewrite Hs, Hc. }
    rewrite Hm; cbn [fst snd]. rewrite _close_eq; cbn.
    repeat split. apply skipn_app_exact.
  - intros Hstop ops m; now apply run_ops_closes.
Qed.

Lemma close_safe_in_every_phase_witness :
  every_close_returned [OpClose; OpStart; OpClose; OpClose]
    (fst (run_ops chrome_absent [OpClose; OpStart; OpClose; OpClose]
            (boot (fresh sample_config)))) = true.
Proof.
  apply (proj2 (proj2 (proj2 (close_safe_in_every_phase chrome_absent)))).
  reflexivity.
Defined.

(** C4, as the specification has it, fails: on a session whose [_start]
    has returned, a second [_start] returns as well; it started a second
    driver and attached again, and the accessor now answers with the context
    of the second connection. *)
Lemma second_start_reconnects :
  fst (run_ops chrome_reconnecting [OpStart; OpStart] (boot (fresh sample_config)))
    = [inr tt; inr tt] /\
  browser_context
    (self (snd (run_ops chrome_reconnecting [OpStart] (boot (fresh sample_config)))))
    = inr 101 /\
  browser_context
    (self (snd (run_ops chrome_reconnecting [OpStart; OpStart] (boot (fresh sample_config)))))
    = inr 103 /\
  calls (snd (run_ops chrome_reconnecting [OpStart; OpStart] (boot (fresh sample_config))))
    = [CallAsyncPlaywrightStart; CallConnectOverCdp 0 cdp_endpoint;
       CallAsyncPlaywrightStart; CallConnectOverCdp 2 cdp_endpoint].
Proof. repeat split; reflexivity. Qed.

(** C4, amended.  [_start] checks no phase.  Its outcome and the calls it
    makes are the same whatever attributes the object holds, so on a
    session already started it proceeds as a first [_start] would: a driver
    is started and the attach is made again.  If this [_start] raises, the
    accessor answers as before it, so the context of the first session stays
    available; if it returns, the handles are replaced by those of this
    call: the driver it started, the browser its attach returned, and as
    context the first of that browser's contexts or, when it has none, the
    one [new_context] made on it; the accessor answers with that context. *)
Theorem start_checks_no_phase (drv : Driver) (m : Machine) :
  (forall o' : LocalPlaywrightBrowser,
      fst (_start drv (mkMachine o' (calls m) (stdout m))) = fst (_start drv m) /\
      calls (snd (_start drv (mkMachine o' (calls m) (stdout m))))
        = calls (snd (_start drv m))) /\
  match fst (_start drv m) with
  | inl _ =>
      browser_context (self (snd (_start drv m))) = browser_context (self m)
  | inr _ =>
      exists (pw : Playwright) (b : Browser) (c : BrowserContext),
        drv_start drv (calls m) = inr pw /\
        drv_connect_over_cdp drv (calls m ++ [CallAsyncPlaywrightStart]) pw cdp_endpoint
          = inr b /\
        match contexts b with
        | c0 :: _ => c = c0
        | [] =>
            drv_new_context drv
              (calls m ++ [CallAsyncPlaywrightStart; CallConnectOverCdp pw cdp_endpoint]) b
            = inr c
        end /\
        _playwright (self (snd (_start drv m))) = Some pw /\
        _browser (self (snd (_start drv m))) = Some b /\
        _context (self (snd (_start drv m))) = Some c /\
        browser_context (self (snd (_start drv m))) = inr c /\
        length (filter is_connect (calls_made m (snd (_start drv m)))) = 1
  end.
Proof.
  split.
  - intros o'; rewrite !_start_eq; cbn.
    destruct (drv_start drv (calls m)) as [e | pw]; cbn; [auto |].
    destruct (drv_connect_over_cdp drv _ pw cdp_endpoint) as [e | b]; cbn; [auto |].
    destruct (contexts b) as [| c cs]; cbn; [| auto].
    destruct (drv_new_context drv _ b); cbn; auto.
  - unfold calls_made; rewrite _start_eq; cbn zeta.
    destruct (drv_start drv (calls m)) as [e | pw] eqn:Hs; cbn; [reflexivity |].
    destruct (drv_connect_over_cdp drv _ pw cdp_endpoint) as [e | b] eqn:Hc; cbn;
      [reflexivity |].
    destruct (contexts b) as [| c cs] eqn:Hb; cbn.
    + rewrite <- app_assoc; cbn [app].
      destruct (drv_new_context drv _ b) as [e | c] eqn:Hn; cbn; [reflexivity |].
      exists pw, b, c; rewrite Hb.
      repeat apply conj; try reflexivity; try assumption.
      rewrite <- !app_assoc, skipn_app_exact; reflexivity.
    + exists pw, b, c; rewrite Hb.
      repeat apply conj; try reflexivity; try assumption.
      rewrite <- !app_assoc, skipn_app_exact; reflexivity.
Qed.

(** * Further properties of the lifecycle *)

(** ** Failure paths of start *)

(** X1.  When the Playwright driver does not come up, [_start] raises the
    driver's exception as it is; the object is untouched, nothing is
    printed, and no attach is attempted: the driver start is the only
    call. *)
Theorem start_driver_failure (drv : Driver) (m : Machine) (e : PyExc)
    (Hs : drv_start drv (calls m) = inl e) :
  fst (_start drv m) = inl e /\
  self (snd (_start drv m)) = self m /\
  stdout (snd (_start drv m)) = stdout m /\
  calls_made m (snd (_start drv m)) = [CallAsyncPlaywrightStart].
Proof.
  rewrite _start_eq; cbn zeta; rewrite Hs; cbn.
  repeat split. apply skipn_app_exact.
Qed.

Lemma start_driver_failure_witness :
  fst (_start driver_broken (boot (fresh sample_config))) = inl driver_not_installed /\
  self (snd (_start driver_broken (boot (fresh sample_config)))) = fresh sample_config /\
  stdout (snd (_start driver_broken (boot (fresh sample_config)))) = [] /\
  calls_made (boot (fresh sample_config))
    (snd (_start driver_broken (boot (fresh sample_config)))) = [CallAsyncPlaywrightStart].
Proof.
  apply (start_driver_failure driver_broken (boot (fresh sample_config))
           driver_not_installed); reflexivity.
Defined.

(** X2.  When the attach succeeds on a browser without context and
    [new_context] raises, [_start] raises that exception.  The object is
    left half set: the new driver and the new browser are stored, the
    context attribute is the one held before the call. *)
Theorem start_new_context_failure (drv : Driver) (m : Machine)
    (pw : Playwright) (b : Browser) (e : PyExc)
    (Hs : drv_start drv (calls m) = inr pw)
    (Hc : drv_connect_over_cdp drv (calls m ++ [CallAsyncPlaywrightStart]) pw cdp_endpoint
          = inr b)
    (Hb : contexts b = [])
    (Hn : drv_new_context drv
            (calls m ++ [CallAsyncPlaywrightStart; CallConnectOverCdp pw cdp_endpoint]) b
          = inl e) :
  fst (_start drv m) = inl e /\
  _playwright (self (snd (_start drv m))) = Some pw /\
  _browser (self (snd (_start drv m))) = Some b /\
  _context (self (snd (_start drv m))) = _context (self m) /\
  browser_context (self (snd (_start drv m))) = browser_context (self m) /\
  calls_made m (snd (_start drv m)) =
    [CallAsyncPlaywrightStart; CallConnectOverCdp pw cdp_endpoint; CallNewContext b] /\
  stdout (snd (_start drv m)) = log_error e (stdout m ++ [msg_attempt]).
Proof.
  unfold calls_made.
  rewrite _start_eq; cbn zeta; rewrite Hs, Hc, Hb.
  rewrite <- app_assoc; cbn [app]. rewrite Hn; cbn.
  repeat split. rewrite <- !app_assoc; cbn [app]. apply skipn_app_exact.
Qed.

Lemma start_new_context_failure_witness :
  fst (_start chrome_refusing_context (boot (fresh sample_config))) = inl target_closed /\
  _playwright (self (snd (_start chrome_refusing_context (boot (fresh sample_config)))))
    = Some 1 /\
  _browser (self (snd (_start chrome_refusing_context (boot (fresh sample_config)))))
    = Some (mkBrowser 10 []) /\
  _context (self (snd (_start chrome_refusing_context (boot (fresh sample_config)))))
    = None /\
  browser_context (self (snd (_start chrome_refusing_context (boot (fresh sample_config)))))
    = inl (RuntimeError msg_not_initialized) /\
  calls_made (boot (fresh sample_config))
    (snd (_start chrome_refusing_context (boot (fresh sample_config)))) =
    [CallAsyncPlaywrightStart; CallConnectOverCdp 1 cdp_endpoint;
     CallNewContext (mkBrowser 10 [])] /\
  stdout (snd (_start chrome_refusing_context (boot (fresh sample_config)))) =
    log_error target_closed ([] ++ [msg_attempt]).
Proof.
  apply (start_new_context_failure chrome_refusing_context (boot (fresh sample_config))
           1 (mkBrowser 10 []) target_closed); reflexivity.
Defined.

(** ** What start calls and prints *)

(** The calls of one [_start], by the driver's answers. *)
Lemma _start_calls_made (drv : Driver) (m : Machine) :
  calls_made m (snd (_start drv m)) =
  match drv_start drv (calls m) with
  | inl _ => [CallAsyncPlaywrightStart]
  | inr pw =>
      match drv_connect_over_cdp drv (calls m ++ [CallAsyncPlaywrightStart]) pw cdp_endpoint with
      | inl _ => [CallAsyncPlaywrightStart; CallConnectOverCdp pw cdp_endpoint]
      | inr b =>
          match contexts b with
          | _ :: _ => [CallAsyncPlaywrightStart; CallConnectOverCdp pw cdp_endpoint]
          | [] => [CallAsyncPlaywrightStart; CallConnectOverCdp pw cdp_endpoint;
                   CallNewContext b]
          end
      end
  end.
Proof.
  apply calls_made_app. rewrite _start_eq; cbn zeta.
  destruct (drv_start drv (calls m)) as [e | pw]; cbn; [reflexivity |].
  destruct (drv_connect_over_cdp drv _ pw cdp_endpoint) as [e | b]; cbn.
  { now rewrite <- app_assoc. }
  destruct (contexts b) as [| c cs]; cbn.
  - destruct (drv_new_context drv _ b); cbn; now rewrite <- !app_assoc.
  - now rewrite <- app_assoc.
Qed.

(** X3.  One [_start] makes at least one and at most three library calls,
    among them at most one attach and at most one [new_context]; and it
    asks for a new context only on the browser the attach returned, and
    only when that browser reported no context at all, also on the paths
    where [_start] raises. *)
Theorem start_call_budget (drv : Driver) (m : Machine) :
  1 <= length (calls_made m (snd (_start drv m))) <= 3 /\
  length (filter is_connect (calls_made m (snd (_start drv m)))) <= 1 /\
  length (filter is_new_context (calls_made m (snd (_start drv m)))) <= 1 /\
  (forall b : Browser,
      In (CallNewContext b) (calls_made m (snd (_start drv m))) ->
      contexts b = [] /\
      exists pw : Playwright,
        drv_start drv (calls m) = inr pw /\
        drv_connect_over_cdp drv (calls m ++ [CallAsyncPlaywrightStart]) pw cdp_endpoint
          = inr b).
Proof.
  rewrite _start_calls_made.
  destruct (drv_start drv (calls m)) as [e | pw] eqn:Hs.
  { cbn; repeat apply conj; try lia. intros b0 [H | []]; discriminate. }
  destruct (drv_connect_over_cdp drv _ pw cdp_endpoint) as [e | b] eqn:Hc.
  { cbn; repeat apply conj; try lia. intros b0 [H | [H | []]]; discriminate. }
  destruct (contexts b) as [| c cs] eqn:Hb.
  - cbn; repeat apply conj; try lia.
    intros b0 [H | [H | [H | []]]]; try discriminate.
    injection H as <-; split; [exact Hb | exists pw; auto].
  - cbn; repeat apply conj; try lia. intros b0 [H | [H | []]]; discriminate.
Qed.



(** ** Construction with keywords *)

(** X5.  The defaults of the constructor and of the configuration model
    agree on every call that passes [headless]: building the browser and
    converting it gives what building the configuration gives.  They differ
    when [headless] is left out: the model rejects the call, the
    constructor takes [headless=False]. *)
Theorem constructor_defaults_agree :
  (forall (h : bool) (ch : option (option string)) (dl p : option bool)
          (d : option (option string)),
      result_map _to_config (LocalPlaywrightBrowser_new (mkKwargs (Some h) ch dl p d))
      = LocalPlaywrightBrowserConfig_new (mkKwargs (Some h) ch dl p d)) /\
  (forall (ch : option (option string)) (dl p : option bool) (d : option (option string)),
      returned (LocalPlaywrightBrowserConfig_new (mkKwargs None ch dl p d)) = false /\
      result_map _headless (LocalPlaywrightBrowser_new (mkKwargs None ch dl p d))
      = inr false).
Proof. split; intros; [reflexivity | split; reflexivity]. Qed.

(** ** Invariants of whole lifecycles *)

(** Each method appends to the log, and what it appends neither closes a
    browser or context nor attaches anywhere but to the CDP endpoint. *)
Lemma run_op_calls (drv : Driver) (o : Op) (m : Machine) :
  exists new : list Call,
    calls (snd (run_op drv o m)) = calls m ++ new /\
    never_closes new = true /\
    connects_only_to cdp_endpoint new = true.
Proof.
  destruct o; cbn [run_op].
  - destruct (_start_calls drv m) as [new [Hnew Hshape]].
    exists (CallAsyncPlaywrightStart :: new); split; [exact Hnew |].
    destruct Hshape as [-> | [pw [-> | [b ->]]]]; split; reflexivity.
  - rewrite _close_eq. destruct (_playwright (self m)) as [pw |]; cbn.
    + exists [CallStop pw]; auto.
    + exists []; rewrite app_nil_r; auto.
Qed.

Lemma run_ops_calls (drv : Driver) (ops : list Op) :
  forall m : Machine,
  exists new : list Call,
    calls (snd (run_ops drv ops m)) = calls m ++ new /\
    never_closes new = true /\
    connects_only_to cdp_endpoint new = true.
Proof.
  induction ops as [| o rest IH]; intros m.
  - exists []; cbn; rewrite app_nil_r; auto.
  - rewrite run_ops_cons; cbn [snd].
    destruct (run_op_calls drv o m) as [n1 [H1 [Hc1 He1]]].
    destruct (IH (snd (run_op drv o m))) as [n2 [H2 [Hc2 He2]]].
    exists (n1 ++ n2); rewrite H2, H1, <- app_assoc; split; [reflexivity |].
    unfold never_closes, connects_only_to in *.
    rewrite !forallb_app, Hc1, Hc2, He1, He2; auto.
Qed.

(** X6.  Whatever sequence of [_start] and [_close] calls a caller makes,
    from whatever state, the session never calls [close()] on a browser or
    on a context, and every attach it makes goes to
    [http://localhost:9222]. *)
Theorem lifecycle_never_closes_browser (drv : Driver) (ops : list Op) (m : Machine) :
  never_closes (calls_made m (snd (run_ops drv ops m))) = true /\
  connects_only_to "http://localhost:9222" (calls_made m (snd (run_ops drv ops m))) = true.
Proof.
  destruct (run_ops_calls drv ops m) as [new [Hnew [Hc He]]].
  rewrite (calls_made_app _ _ _ Hnew); auto.
Qed.

Lemma _start_handles_ordered (drv : Driver) (m : Machine) :
  handles_ordered (self m) = true ->
  handles_ordered (self (snd (_start drv m))) = true.
Proof.
  intros H. rewrite _start_eq; cbn zeta.
  destruct (drv_start drv (calls m)) as [e | pw]; cbn [snd self]; [exact H |].
  unfold handles_ordered in *; apply andb_true_iff in H; destruct H as [H1 H2].
  destruct (drv_connect_over_cdp drv _ pw cdp_endpoint) as [e | b]; cbn.
  { rewrite H1; cbn. now destruct (_browser (self m)). }
  destruct (contexts b) as [| c cs]; cbn; [| reflexivity].
  destruct (drv_new_context drv _ b); cbn; [| reflexivity].
  now destruct (_context (self m)).
Qed.

(** X7.  On an object built by the constructor, after any sequence of
    [_start] and [_close] calls, the handles are held in acquisition order:
    a context attribute is set only if a browser attribute is, and a
    browser attribute only if a driver attribute is.  So whenever the
    accessor can return a context, [_close] has a driver to stop. *)
Theorem lifecycle_handles_ordered (drv : Driver) (c : LocalPlaywrightBrowserConfig)
    (ops : list Op) :
  handles_ordered (self (snd (run_ops drv ops (boot (fresh c))))) = true /\
  (returned (browser_context (self (snd (run_ops drv ops (boot (fresh c)))))) = true ->
   is_not_None (_playwright (self (snd (run_ops drv ops (boot (fresh c)))))) = true).
Proof.
  assert (Hgen : forall l m, handles_ordered (self m) = true ->
                             handles_ordered (self (snd (run_ops drv l m))) = true).
  { induction l as [| o rest IH]; intros m Hm; [exact Hm |].
    rewrite run_ops_cons; cbn [snd]. apply IH.
    destruct o; cbn [run_op]; [now apply _start_handles_ordered | now rewrite _close_self]. }
  assert (Hord := Hgen ops (boot (fresh c)) eq_refl).
  split; [exact Hord |].
  unfold handles_ordered, browser_context in *.
  destruct (_context (self (snd (run_ops drv ops (boot (fresh c)))))); cbn; [| discriminate].
  intros _. cbn in Hord.
  destruct (_browser (self (snd (run_ops drv ops (boot (fresh c)))))); cbn in Hord;
    [| discriminate].
  now destruct (_playwright (self (snd (run_ops drv ops (boot (fresh c)))))).
Qed.

Lemma lifecycle_handles_ordered_witness :
  is_not_None
    (_playwright
       (self (snd (run_ops chrome_running [OpStart; OpClose] (boot (fresh sample_config))))))
  = true.
Proof.
  apply (proj2 (lifecycle_handles_ordered chrome_running sample_config [OpStart; OpClose])).
  reflexivity.
Defined.

Lemma _start_to_config (drv : Driver) (m : Machine) :
  _to_config (self (snd (_start drv m))) = _to_config (self m).
Proof.
  rewrite _start_eq; cbn zeta.
  destruct (drv_start drv (calls m)) as [e | pw]; cbn; [reflexivity |].
  destruct (drv_connect_over_cdp drv _ pw cdp_endpoint) as [e | b]; cbn; [reflexivity |].
  destruct (contexts b) as [| c cs]; cbn; [| reflexivity].
  destruct (drv_new_context drv _ b); reflexivity.
Qed.

(** X8.  The configuration of a session is fixed at construction: no
    sequence of [_start] and [_close] calls, failed ones included, changes
    what [_to_config] returns.  For a browser made by [_from_config c] it
    is [c] at every point of its life. *)
Theorem lifecycle_keeps_config (drv : Driver) (ops : list Op) :
  (forall m : Machine,
      _to_config (self (snd (run_ops drv ops m))) = _to_config (self m)) /\
  (forall c : LocalPlaywrightBrowserConfig,
      result_map (fun o => _to_config (self (snd (run_ops drv ops (boot o)))))
                 (_from_config c) = inr c).
Proof.
  assert (Hgen : forall m, _to_config (self (snd (run_ops drv ops m))) = _to_config (self m)).
  { induction ops as [| o rest IH]; intros m; [reflexivity |].
    rewrite run_ops_cons; cbn [snd]. rewrite IH.
    destruct o; cbn [run_op]; [apply _start_to_config | now rewrite _close_self]. }
  split; [exact Hgen |].
  intros c; cbn [_from_config __init__ result_map]. rewrite Hgen. now destruct c.
Qed.

(** ** The driver handle across calls *)

Lemma repeat_close_calls (drv : Driver) (k : nat) :
  forall m : Machine,
    calls (snd (run_ops drv (repeat OpClose k) m)) =
      calls m ++ match _playwright (self m) with
                 | Some pw => repeat (CallStop pw) k
                 | None => []
                 end /\
    self (snd (run_ops drv (repeat OpClose k) m)) = self m.
Proof.
  induction k as [| k IH]; intros m.
  - cbn; destruct (_playwright (self m)); now rewrite app_nil_r.
  - cbn [repeat]. rewrite run_ops_cons; cbn [snd run_op].
    destruct (IH (snd (_close drv m))) as [Hc Hs].
    rewrite Hc, Hs, _close_self. split; [| reflexivity].
    rewrite _close_eq. destruct (_playwright (self m)) as [pw |]; cbn [snd calls].
    + now rewrite <- app_assoc.
    + reflexivity.
Qed.

(** X9.  [_close] keeps the driver attribute, so closing again is not a
    no-op: [k] calls of [_close] in a row on a session that holds a driver
    call [stop()] on that same driver [k] times, and leave the object as it
    was.  On a session without driver they call nothing. *)
Theorem repeated_close_stops_again (drv : Driver) (k : nat) (m : Machine) :
  calls_made m (snd (run_ops drv (repeat OpClose k) m)) =
    match _playwright (self m) with
    | Some pw => repeat (CallStop pw) k
    | None => []
    end /\
  self (snd (run_ops drv (repeat OpClose k) m)) = self m.
Proof.
  destruct (repeat_close_calls drv k m) as [Hc Hs].
  split; [now apply calls_made_app | exact Hs].
Qed.

Lemma _start_playwright (drv : Driver) (m : Machine) (pw : Playwright) :
  drv_start drv (calls m) = inr pw ->
  _playwright (self (snd (_start drv m))) = Some pw.
Proof.
  intros Hs. rewrite _start_eq; cbn zeta; rewrite Hs.
  destruct (drv_connect_over_cdp drv _ pw cdp_endpoint) as [e | b]; cbn; [reflexivity |].
  destruct (contexts b) as [| c cs]; cbn; [| reflexivity].
  destruct (drv_new_context drv _ b); reflexivity.
Qed.

Lemma _start_no_stop (drv : Driver) (m : Machine) :
  exists new : list Call,
    calls (snd (_start drv m)) = calls m ++ new /\ filter is_stop new = [].
Proof.
  destruct (_start_calls drv m) as [new [Hnew Hshape]].
  exists (CallAsyncPlaywrightStart :: new); split; [exact Hnew |].
  destruct Hshape as [-> | [pw [-> | [b ->]]]]; reflexivity.
Qed.

(** X10.  [_start] on a session that already holds a driver replaces the
    handle without stopping the driver it held.  After two [_start] calls
    whose driver starts returned [pw1] and then [pw2], a [_close] stops
    [pw2], and that is the only [stop()] of the three calls: when the two
    drivers differ, the first one is never stopped. *)
Theorem restart_leaks_first_driver (drv : Driver) (m : Machine) (pw1 pw2 : Playwright)
    (H1 : drv_start drv (calls m) = inr pw1)
    (H2 : drv_start drv (calls (snd (_start drv m))) = inr pw2) :
  filter is_stop (calls_made m (snd (run_ops drv [OpStart; OpStart; OpClose] m)))
    = [CallStop pw2] /\
  (pw1 <> pw2 ->
   ~ In (CallStop pw1) (calls_made m (snd (run_ops drv [OpStart; OpStart; OpClose] m)))).
Proof.
  assert (Hf : filter is_stop (calls_made m (snd (run_ops drv [OpStart; OpStart; OpClose] m)))
               = [CallStop pw2]).
  { rewrite !run_ops_cons; cbn [snd run_op run_ops].
    destruct (_start_no_stop drv m) as [n1 [Hn1 Hf1]].
    destruct (_start_no_stop drv (snd (_start drv m))) as [n2 [Hn2 Hf2]].
    pose proof (_start_playwright drv _ pw2 H2) as Hpw.
    rewrite (calls_made_app m _ (n1 ++ n2 ++ [CallStop pw2])).
    - rewrite !filter_app, Hf1, Hf2; reflexivity.
    - rewrite _close_eq, Hpw; cbn [snd calls].
      rewrite Hn2, Hn1, <- !app_assoc; reflexivity. }
  split; [exact Hf |].
  intros Hne Hin.
  assert (Hin' : In (CallStop pw1)
                   (filter is_stop
                      (calls_made m (snd (run_ops drv [OpStart; OpStart; OpClose] m))))).
  { apply filter_In; split; [exact Hin | reflexivity]. }
  rewrite Hf in Hin'. destruct Hin' as [H | []]. injection H as H; auto.
Qed.

Lemma restart_leaks_first_driver_witness :
  filter is_stop
    (calls_made (boot (fresh sample_config))
       (snd (run_ops chrome_reconnecting [OpStart; OpStart; OpClose]
               (boot (fresh sample_config)))))
    = [CallStop 2] /\
  (0 <> 2 ->
   ~ In (CallStop 0)
       (calls_made (boot (fresh sample_config))
          (snd (run_ops chrome_reconnecting [OpStart; OpStart; OpClose]
                  (boot (fresh sample_config)))))).
Proof.
  apply (restart_leaks_first_driver chrome_reconnecting (boot (fresh sample_config)) 0 2);
    reflexivity.
Defined.

(** ** Runs without a successful start, and the cost of a run *)

(** X11.  Calls that do not include a [_start] that returned leave the
    context attribute alone: after any sequence of [_close] calls and
    failing [_start] calls, the accessor answers exactly as before the
    sequence, be it with the error or with the handle of an earlier
    [_start]. *)
Theorem failed_run_keeps_context (drv : Driver) (ops : list Op) (m : Machine)
    (Hnone : some_start_returned ops (fst (run_ops drv ops m)) = false) :
  _context (self (snd (run_ops drv ops m))) = _context (self m) /\
  browser_context (self (snd (run_ops drv ops m))) = browser_context (self m).
Proof.
  assert (Hctx : _context (self (snd (run_ops drv ops m))) = _context (self m)).
  { revert m Hnone. induction ops as [| o rest IH]; intros m Hnone; [reflexivity |].
    rewrite run_ops_cons in Hnone |- *; cbn [fst snd] in Hnone |- *.
    destruct o; cbn [run_op some_start_returned] in Hnone |- *.
    - apply orb_false_iff in Hnone; destruct Hnone as [Hr Hrest].
      rewrite (IH _ Hrest).
      pose proof (_start_context drv m) as Hc.
      destruct (fst (_start drv m)); [exact Hc | discriminate].
    - rewrite (IH _ Hnone). now rewrite _close_self. }
  split; [exact Hctx |]. unfold browser_context; now rewrite Hctx.
Qed.

Lemma failed_run_keeps_context_witness :
  _context
    (self (snd (run_ops chrome_absent [OpStart; OpClose; OpStart]
                  (snd (_start chrome_running (boot (fresh sample_config)))))))
  = _context (self (snd (_start chrome_running (boot (fresh sample_config))))) /\
  browser_context
    (self (snd (run_ops chrome_absent [OpStart; OpClose; OpStart]
                  (snd (_start chrome_running (boot (fresh sample_config)))))))
  = browser_context (self (snd (_start chrome_running (boot (fresh sample_config))))).
Proof.
  apply (failed_run_keeps_context chrome_absent [OpStart; OpClose; OpStart]
           (snd (_start chrome_running (boot (fresh sample_config))))).
  reflexivity.
Defined.

Lemma run_op_cost (drv : Driver) (o : Op) (m : Machine) :
  exists new : list Call,
    calls (snd (run_op drv o m)) = calls m ++ new /\
    length (filter is_connect new) <= (if is_start_op o then 1 else 0) /\
    length (filter is_stop new) <= (if is_close_op o then 1 else 0) /\
    length new <= 3.
Proof.
  destruct o; cbn [run_op is_start_op is_close_op].
  - destruct (_start_calls drv m) as [new [Hnew Hshape]].
    exists (CallAsyncPlaywrightStart :: new); split; [exact Hnew |].
    destruct Hshape as [-> | [pw [-> | [b ->]]]]; cbn; lia.
  - rewrite _close_eq. destruct (_playwright (self m)) as [pw |]; cbn [snd calls].
    + exists [CallStop pw]; cbn; repeat split; lia.
    + exists []; rewrite app_nil_r; cbn; repeat split; lia.
Qed.

(** X12.  A run costs what its calls allow: the session attaches at most
    once per [_start] called and stops a driver at most once per [_close]
    called, and makes at most three library calls per method call.  There
    is no retry and no background call anywhere in the lifecycle. *)
Theorem lifecycle_call_budget (drv : Driver) (ops : list Op) (m : Machine) :
  length (filter is_connect (calls_made m (snd (run_ops drv ops m))))
    <= length (filter is_start_op ops) /\
  length (filter is_stop (calls_made m (snd (run_ops drv ops m))))
    <= length (filter is_close_op ops) /\
  length (calls_made m (snd (run_ops drv ops m))) <= 3 * length ops.
Proof.
  assert (Hgen : forall l m0, exists new : list Call,
             calls (snd (run_ops drv l m0)) = calls m0 ++ new /\
             length (filter is_connect new) <= length (filter is_start_op l) /\
             length (filter is_stop new) <= length (filter is_close_op l) /\
             length new <= 3 * length l).
  { induction l as [| o rest IH]; intros m0.
    - exists []; cbn; rewrite app_nil_r; repeat split; lia.
    - rewrite run_ops_cons; cbn [snd].
      destruct (run_op_cost drv o m0) as [n1 [H1 [Hc1 [Hs1 Hl1]]]].
      destruct (IH (snd (run_op drv o m0))) as [n2 [H2 [Hc2 [Hs2 Hl2]]]].
      exists (n1 ++ n2); rewrite H2, H1, <- app_assoc; split; [reflexivity |].
      rewrite !filter_app, !length_app.
      destruct o; cbn [filter is_start_op is_close_op length] in *; lia. }
  destruct (Hgen ops m) as [new [Hnew Hb]].
  rewrite (calls_made_app _ _ _ Hnew); exact Hb.
Qed.
